(** * The Condor query oracle (condor_oracle.py)

    A shallow embedding of the module [condor_oracle.py] and of the part
    of the circuit library it drives: circuits are objects of a store,
    the builder methods run in a store-and-error monad, and a circuit
    acts on computational basis states (one boolean per wire). *)

From Stdlib Require Import Ascii Sorted.
From stdpp Require Import base list strings.

Local Open Scope string_scope.
Local Open Scope nat_scope.
Local Open Scope list_scope.

(** ** Gates, instructions, circuits *)

(** A gate is one of the two library primitives the module appends, or a
    custom gate produced by [to_gate], which carries the instruction
    list it was made from as its definition.  An instruction is a gate
    together with the wires it is applied to. *)
Inductive Gate : Type :=
| XGate
| MCXGate (num_ctrl_qubits : nat)
| CustomGate (gate_name : string) (label : option string)
             (gate_num_qubits : nat) (definition : list CircuitInstruction)
with CircuitInstruction : Type :=
| Instr (operation : Gate) (qubits : list nat).

Definition operation (i : CircuitInstruction) : Gate :=
  match i with Instr g _ => g end.

Definition qubits (i : CircuitInstruction) : list nat :=
  match i with Instr _ qs => qs end.

(** Number of wires a gate acts on. *)
Definition num_qubits_of (g : Gate) : nat :=
  match g with
  | XGate => 1
  | MCXGate k => S k
  | CustomGate _ _ n _ => n
  end.

Record QuantumCircuit : Type := mkCircuit {
  num_qubits : nat;
  name : string;
  data : list CircuitInstruction
}.

(** ** The object store and the builder monad *)

(** Circuit objects live in a store; a reference is an index into it and
    allocation extends the store at its end. *)
Abbreviation ref := nat (only parsing).
Abbreviation Heap := (list QuantumCircuit).

Inductive PyError : Type :=
| CircuitError.

Inductive Result (A : Type) : Type :=
| Ok (a : A)
| Raise (e : PyError).
Arguments Ok {A} a.
Arguments Raise {A} e.

Definition M (A : Type) : Type := Heap -> Result (A * Heap).

Definition ret {A} (a : A) : M A := fun h => Ok (a, h).

Definition bind {A B} (m : M A) (k : A -> M B) : M B :=
  fun h => match m h with
           | Ok (a, h') => k a h'
           | Raise e => Raise e
           end.

Notation "x <- m ;; k" := (bind m (fun x => k))
  (at level 100, m at next level, right associativity).
Notation "m ;;; k" := (bind m (fun _ => k))
  (at level 100, right associativity).

(** [for x in l: body x] *)
Fixpoint for_each {A} (l : list A) (body : A -> M unit) : M unit :=
  match l with
  | [] => ret tt
  | x :: l' => body x ;;; for_each l' body
  end.

(** ** The circuit library, as far as the module uses it *)

(** [QuantumCircuit(n, name=...)]: a new, empty circuit object. *)
Definition QuantumCircuit_new (n : nat) (nm : string) : M ref :=
  fun h => Ok (length h, h ++ [mkCircuit n nm []]).

(** Wire arguments are checked when an instruction is appended: every
    index must address a wire of the circuit, no wire may be named
    twice, and the number of arguments must be the gate's width. *)
Definition qargs_ok (n : nat) (g : Gate) (qs : list nat) : bool :=
  forallb (fun q => q <? n) qs
  && bool_decide (NoDup qs)
  && (length qs =? num_qubits_of g).

(** [qc.append(gate, qargs)] *)
Definition QuantumCircuit_append (qc : ref) (g : Gate) (qs : list nat) : M unit :=
  fun h => match h !! qc with
           | Some c =>
               if qargs_ok (num_qubits c) g qs
               then Ok (tt, <[qc := mkCircuit (num_qubits c) (name c)
                                     (data c ++ [Instr g qs])]> h)
               else Raise CircuitError
           | None => Raise CircuitError
           end.

(** [qc.x(i)] *)
Definition QuantumCircuit_x (qc : ref) (i : nat) : M unit :=
  QuantumCircuit_append qc XGate [i].

(** [qc.mcx(controls, target)] *)
Definition QuantumCircuit_mcx (qc : ref) (controls : list nat) (target : nat) : M unit :=
  QuantumCircuit_append qc (MCXGate (length controls)) (controls ++ [target]).

(** [qc.to_gate(label=...)]: the gate takes the circuit's name and width
    and a copy of its instructions.  The copy is held by the gate as a
    value: the circuit object the library makes for it is not an object
    of the store, so the store is no count of the objects of a call. *)
Definition QuantumCircuit_to_gate (qc : ref) (lbl : string) : M Gate :=
  fun h => match h !! qc with
           | Some c => Ok (CustomGate (name c) (Some lbl) (num_qubits c) (data c), h)
           | None => Raise CircuitError
           end.

(** [gate.name = nm] *)
Definition Gate_set_name (g : Gate) (nm : string) : Gate :=
  match g with
  | CustomGate _ lbl n d => CustomGate nm lbl n d
  | _ => g
  end.

(** [qc.qubits] *)
Definition QuantumCircuit_qubits (qc : ref) : M (list nat) :=
  fun h => match h !! qc with
           | Some c => Ok (seq 0 (num_qubits c), h)
           | None => Raise CircuitError
           end.

(** ** The module *)

(** The module's global names, as its functions read them when called. *)
Record Globals : Type := mkGlobals {
  N_CONFIG_BITS : nat;
  SECRET_BITSTRING : string
}.

(** [enumerate(s)] for a string [s], counting from [i]. *)
Fixpoint enumerate_from (i : nat) (s : string) : list (nat * ascii) :=
  match s with
  | EmptyString => []
  | String b s' => (i, b) :: enumerate_from (S i) s'
  end.

Definition enumerate (s : string) : list (nat * ascii) := enumerate_from 0 s.

(** [[i for i, b in enumerate(s) if b == "0"]] *)
Definition pick_zero (p : nat * ascii) : option nat :=
  if Ascii.eqb (snd p) "0"%char then Some (fst p) else None.

Definition zeros_of (s : string) : list nat :=
  omap pick_zero (enumerate s).

Definition _build_internal_condor_oracle (g : Globals) : M ref :=
  let n := N_CONFIG_BITS g in
  qc <- QuantumCircuit_new (n + 1) "Uf_condor_internal" ;;
  let controls := seq 0 n in
  let anc := n in
  let zeros := zeros_of (SECRET_BITSTRING g) in
  for_each zeros (fun i => QuantumCircuit_x qc i) ;;;
  QuantumCircuit_mcx qc controls anc ;;;
  for_each zeros (fun i => QuantumCircuit_x qc i) ;;;
  ret qc.

Definition build_Uf_condor (g : Globals) : M ref :=
  internal <- _build_internal_condor_oracle g ;;
  Uf_gate <- QuantumCircuit_to_gate internal "$U_f$" ;;
  let Uf_gate := Gate_set_name Uf_gate "Uf_condor" in
  wrapper <- QuantumCircuit_new (N_CONFIG_BITS g + 1) "Uf_condor" ;;
  wq <- QuantumCircuit_qubits wrapper ;;
  QuantumCircuit_append wrapper Uf_gate wq ;;;
  ret wrapper.

(** Executing the module body with the two literals it assigns: the two
    assignments, then the two function definitions.  Nothing else runs
    when the module is loaded. *)
Definition exec_module (n : nat) (secret : string) : Result Globals :=
  Ok (mkGlobals n secret).

(** The module as it is written. *)
Definition condor_oracle : Globals :=
  mkGlobals 16 "1011101011010101".

(** ** Circuits acting on basis states *)

(** A basis state gives one boolean per wire; wire [i] is entry [i]. *)
Abbreviation BasisState := (list bool).

Definition wire (st : BasisState) (i : nat) : bool :=
  match st !! i with
  | Some b => b
  | None => false
  end.

(** The gates as the circuit library defines them, on basis states.
    The X gate complements its wire.  The multi-controlled X gate on
    [k] controls followed by a target complements the target when every
    control reads 1.  A custom gate runs its definition, whose wire [j]
    is the [j]-th wire the gate is applied to. *)
Fixpoint apply_gate (g : Gate) (qs : list nat) (st : BasisState) : BasisState :=
  match g with
  | XGate =>
      match qs with
      | [q] => alter negb q st
      | _ => st
      end
  | MCXGate k =>
      match qs !! k with
      | Some t =>
          if forallb (wire st) (take k qs) then alter negb t st else st
      | None => st
      end
  | CustomGate _ _ _ d =>
      (fix go (l : list CircuitInstruction) (st : BasisState) : BasisState :=
         match l with
         | [] => st
         | Instr g' qs' :: l' =>
             go l' (apply_gate g' (map (fun j => qs !!! j) qs') st)
         end) d st
  end.

Definition apply_instruction (st : BasisState) (i : CircuitInstruction) : BasisState :=
  apply_gate (operation i) (qubits i) st.

Fixpoint run (l : list CircuitInstruction) (st : BasisState) : BasisState :=
  match l with
  | [] => st
  | i :: l' => run l' (apply_instruction st i)
  end.

Definition run_circuit (c : QuantumCircuit) (st : BasisState) : BasisState :=
  run (data c) st.

(** The circuit object a call of [build_Uf_condor] returns, if it returns. *)
Definition returned_circuit (m : M ref) (h : Heap) : option QuantumCircuit :=
  match m h with
  | Ok (r, h') => h' !! r
  | Raise _ => None
  end.

(** A pattern of binary symbols read as a configuration vector: entry
    [i] is 1 when the [i]-th symbol is the symbol 1. *)
Fixpoint bits_of (s : string) : list bool :=
  match s with
  | EmptyString => []
  | String b s' => Ascii.eqb b "1"%char :: bits_of s'
  end.

(** A secret pattern is well formed for a width when it has that many
    symbols and each is one of the two binary symbols. *)
Fixpoint binary (s : string) : bool :=
  match s with
  | EmptyString => true
  | String b s' => (Ascii.eqb b "0"%char || Ascii.eqb b "1"%char) && binary s'
  end.

Definition well_formed (g : Globals) : bool :=
  (String.length (SECRET_BITSTRING g) =? N_CONFIG_BITS g)
  && binary (SECRET_BITSTRING g).

(** ** What the builders construct *)

Definition X_on (i : nat) : CircuitInstruction := Instr XGate [i].

(** The gate list of the internal circuit for width [n] and flip
    positions [zs]. *)
Definition oracle_gates (n : nat) (zs : list nat) : list CircuitInstruction :=
  map X_on zs ++ [Instr (MCXGate n) (seq 0 n ++ [n])] ++ map X_on zs.

Definition internal_circuit (g : Globals) : QuantumCircuit :=
  mkCircuit (N_CONFIG_BITS g + 1) "Uf_condor_internal"
            (oracle_gates (N_CONFIG_BITS g) (zeros_of (SECRET_BITSTRING g))).

Definition Uf_gate_of (g : Globals) : Gate :=
  CustomGate "Uf_condor" (Some "$U_f$") (N_CONFIG_BITS g + 1)
             (oracle_gates (N_CONFIG_BITS g) (zeros_of (SECRET_BITSTRING g))).

Definition wrapper_circuit (g : Globals) : QuantumCircuit :=
  mkCircuit (N_CONFIG_BITS g + 1) "Uf_condor"
            [Instr (Uf_gate_of g) (seq 0 (N_CONFIG_BITS g + 1))].

(** Every flip position addresses a wire of the [n + 1]-wire circuit. *)
Definition flips_in_range (g : Globals) : bool :=
  forallb (fun i => i <? N_CONFIG_BITS g + 1) (zeros_of (SECRET_BITSTRING g)).

(** Complementing the wires [zs], one after the other. *)
Fixpoint flips (zs : list nat) (st : BasisState) : BasisState :=
  match zs with
  | [] => st
  | z :: zs' => flips zs' (alter negb z st)
  end.

(** The wire arguments of an inner instruction, seen from outside a
    custom gate applied to the wires [qs]. *)
Definition remap (qs : list nat) (i : CircuitInstruction) : CircuitInstruction :=
  Instr (operation i) (map (fun j => qs !!! j) (qubits i)).

(** The test the multi-controlled gate performs in the middle of the
    oracle: every input wire reads 1 once the wires [zs] are flipped. *)
Definition fires (n : nat) (zs : list nat) (st : BasisState) : bool :=
  forallb (wire (flips zs st)) (seq 0 n).

(** The wires whose secret-pattern symbol is 0, in increasing order. *)
Definition zero_wires (g : Globals) : list nat :=
  List.filter
    (fun i => bool_decide (String.get i (SECRET_BITSTRING g) = Some "0"%char))
    (seq 0 (N_CONFIG_BITS g)).



(** Every instruction of [d] addresses wires below [m] only. *)
Definition wires_below (m : nat) (d : list CircuitInstruction) : Prop :=
  Forall (fun i => Forall (fun q => q < m) (qubits i)) d.

Lemma with_data_id (c : QuantumCircuit) :
  mkCircuit (num_qubits c) (name c) (data c ++ []) = c.
Proof. destruct c; simpl. by rewrite app_nil_r. Qed.

Lemma seq_all_below (n m : nat) :
  n <= m -> forallb (fun q => q <? m) (seq 0 n) = true.
Proof.
  intros Hle. apply forallb_forall. intros q Hq.
  apply in_seq in Hq. apply Nat.ltb_lt. lia.
Qed.

Lemma append_ok (r : ref) (h : Heap) (c : QuantumCircuit) g qs :
  h !! r = Some c ->
  qargs_ok (num_qubits c) g qs = true ->
  QuantumCircuit_append r g qs h =
    Ok (tt, <[r := mkCircuit (num_qubits c) (name c) (data c ++ [Instr g qs])]> h).
Proof. intros Hr Hq. unfold QuantumCircuit_append. by rewrite Hr, Hq. Qed.

Lemma qargs_ok_x (n i : nat) : qargs_ok n XGate [i] = (i <? n).
Proof.
  unfold qargs_ok. simpl. by rewrite !andb_true_r.
Qed.

Lemma qargs_ok_mcx (n : nat) :
  qargs_ok (n + 1) (MCXGate (length (seq 0 n))) (seq 0 n ++ [n]) = true.
Proof.
  unfold qargs_ok.
  replace (seq 0 n ++ [n]) with (seq 0 (S n)) by (by rewrite seq_S).
  rewrite seq_all_below by lia.
  rewrite bool_decide_eq_true_2 by (apply NoDup_seq).
  simpl num_qubits_of. rewrite !length_seq. simpl. apply Nat.eqb_refl.
Qed.

Lemma qargs_ok_wrapper (n : nat) nm lbl d :
  qargs_ok n (CustomGate nm lbl n d) (seq 0 n) = true.
Proof.
  unfold qargs_ok.
  rewrite seq_all_below by lia.
  rewrite bool_decide_eq_true_2 by (apply NoDup_seq).
  simpl. rewrite length_seq. apply Nat.eqb_refl.
Qed.

(** The loop [for i in zs: qc.x(i)] appends one X per position, and
    raises at the first position that is not a wire of the circuit. *)
Lemma x_loop (zs : list nat) : forall (r : ref) (h : Heap) (c : QuantumCircuit),
  h !! r = Some c ->
  for_each zs (fun i => QuantumCircuit_x r i) h =
    if forallb (fun i => i <? num_qubits c) zs
    then Ok (tt, <[r := mkCircuit (num_qubits c) (name c) (data c ++ map X_on zs)]> h)
    else Raise CircuitError.
Proof.
  induction zs as [|z zs IH]; intros r h c Hr; cbn [for_each forallb map].
  - unfold ret. rewrite with_data_id. by rewrite (list_insert_id h r c Hr).
  - unfold bind, QuantumCircuit_x, QuantumCircuit_append. rewrite Hr.
    rewrite qargs_ok_x. destruct (z <? num_qubits c) eqn:Hz; [|done].
    simpl andb.
    rewrite (IH r _ (mkCircuit (num_qubits c) (name c) (data c ++ [X_on z]))).
    + simpl. destruct (forallb _ zs); [|done].
      by rewrite list_insert_insert_eq, <- app_assoc.
    + apply list_lookup_insert_eq. by eapply lookup_lt_Some.
Qed.

Lemma internal_build (g : Globals) (h : Heap) :
  _build_internal_condor_oracle g h =
    if flips_in_range g
    then Ok (length h, h ++ [internal_circuit g])
    else Raise CircuitError.
Proof.
  unfold _build_internal_condor_oracle, flips_in_range, bind at 1.
  unfold QuantumCircuit_new.
  set (n := N_CONFIG_BITS g). set (zs := zeros_of (SECRET_BITSTRING g)).
  set (c0 := mkCircuit (n + 1) "Uf_condor_internal" []).
  assert (H0 : (h ++ [c0]) !! length h = Some c0) by apply list_lookup_middle, eq_refl.
  unfold bind at 1. rewrite (x_loop zs _ _ c0 H0). simpl num_qubits.
  destruct (forallb _ zs) eqn:Hzs; [|done].
  rewrite insert_app_r_alt, Nat.sub_diag by lia. simpl.
  set (c1 := mkCircuit (n + 1) "Uf_condor_internal" (map X_on zs)).
  assert (H1 : (h ++ [c1]) !! length h = Some c1) by apply list_lookup_middle, eq_refl.
  unfold bind at 1, QuantumCircuit_mcx.
  rewrite (append_ok _ _ c1 _ _ H1) by apply qargs_ok_mcx.
  rewrite insert_app_r_alt, Nat.sub_diag by lia. simpl.
  set (c2 := mkCircuit _ _ _).
  assert (H2 : (h ++ [c2]) !! length h = Some c2) by apply list_lookup_middle, eq_refl.
  unfold bind at 1. rewrite (x_loop zs _ _ c2 H2). simpl num_qubits.
  rewrite Hzs. rewrite insert_app_r_alt, Nat.sub_diag by lia. simpl.
  unfold ret, internal_circuit, oracle_gates. fold n zs.
  by rewrite length_seq, <- app_assoc.
Qed.

Lemma Uf_build (g : Globals) (h : Heap) :
  build_Uf_condor g h =
    if flips_in_range g
    then Ok (S (length h), h ++ [internal_circuit g; wrapper_circuit g])
    else Raise CircuitError.
Proof.
  unfold build_Uf_condor, bind at 1. rewrite internal_build.
  destruct (flips_in_range g); [|done].
  assert (Hi : (h ++ [internal_circuit g]) !! length h = Some (internal_circuit g))
    by apply list_lookup_middle, eq_refl.
  unfold bind at 1, QuantumCircuit_to_gate. rewrite Hi.
  unfold bind at 1, QuantumCircuit_new.
  set (h1 := h ++ [internal_circuit g]).
  set (w0 := mkCircuit (N_CONFIG_BITS g + 1) "Uf_condor" []).
  assert (Hw : (h1 ++ [w0]) !! length h1 = Some w0) by apply list_lookup_middle, eq_refl.
  unfold bind at 1, QuantumCircuit_qubits. rewrite Hw.
  unfold bind at 1.
  rewrite (append_ok _ _ w0 _ _ Hw) by apply qargs_ok_wrapper.
  rewrite insert_app_r_alt, Nat.sub_diag by lia. simpl.
  unfold ret, h1. rewrite length_app. simpl.
  rewrite <- app_assoc. simpl. f_equal. f_equal; lia.
Qed.

(** ** What the gate lists compute *)

Lemma run_app (l1 l2 : list CircuitInstruction) : forall st,
  run (l1 ++ l2) st = run l2 (run l1 st).
Proof. induction l1 as [|i l1 IH]; intros st; simpl; [done | apply IH]. Qed.

Lemma run_X_on (zs : list nat) : forall st,
  run (map X_on zs) st = flips zs st.
Proof. induction zs as [|z zs IH]; intros st; simpl; [done | apply IH]. Qed.

Lemma alter_negb_twice (i : nat) (st : BasisState) :
  alter negb i (alter negb i st) = st.
Proof.
  rewrite list_alter_alter_eq. apply list_alter_id.
  intros b. apply negb_involutive.
Qed.

Lemma alter_negb_comm (i j : nat) (st : BasisState) :
  alter negb i (alter negb j st) = alter negb j (alter negb i st).
Proof.
  destruct (decide (i = j)) as [->|Hne]; [done|].
  by apply list_alter_alter_ne.
Qed.

Lemma flips_alter (zs : list nat) : forall (j : nat) (st : BasisState),
  flips zs (alter negb j st) = alter negb j (flips zs st).
Proof.
  induction zs as [|z zs IH]; intros j st; cbn [flips]; [done|].
  by rewrite alter_negb_comm, IH.
Qed.

Lemma flips_twice (zs : list nat) : forall st,
  flips zs (flips zs st) = st.
Proof.
  induction zs as [|z zs IH]; intros st; cbn [flips]; [done|].
  by rewrite flips_alter, IH, alter_negb_twice.
Qed.

Lemma length_flips (zs : list nat) : forall st,
  length (flips zs st) = length st.
Proof.
  induction zs as [|z zs IH]; intros st; cbn [flips]; [done|].
  by rewrite IH, length_alter.
Qed.

Lemma wire_alter_ne (i j : nat) (st : BasisState) :
  i ≠ j -> wire (alter negb i st) j = wire st j.
Proof. intros Hne. unfold wire. by rewrite list_lookup_alter_ne. Qed.

Lemma wire_alter_eq (i : nat) (st : BasisState) :
  i < length st -> wire (alter negb i st) i = negb (wire st i).
Proof.
  intros Hlt. unfold wire. rewrite list_lookup_alter_eq.
  destruct (lookup_lt_is_Some_2 st i Hlt) as [b ->]. done.
Qed.

(** A wire is complemented by [flips zs] exactly when it is listed. *)
Lemma wire_flips (zs : list nat) : forall (st : BasisState) (i : nat),
  NoDup zs -> i < length st ->
  wire (flips zs st) i = xorb (bool_decide (i ∈ zs)) (wire st i).
Proof.
  induction zs as [|z zs IH]; intros st i Hnd Hi; cbn [flips].
  - done.
  - apply NoDup_cons in Hnd as [Hz Hnd].
    rewrite IH by (by rewrite ?length_alter).
    destruct (decide (i = z)) as [->|Hne].
    + rewrite wire_alter_eq by done.
      rewrite (bool_decide_eq_false_2 (z ∈ zs)) by done.
      rewrite (bool_decide_eq_true_2 (z ∈ z :: zs)) by left.
      by destruct (wire st z).
    + rewrite wire_alter_ne by done.
      f_equal. apply bool_decide_ext. rewrite elem_of_cons. tauto.
Qed.

Lemma forallb_agree {A} (f f' : A -> bool) (l : list A) :
  (forall a, a ∈ l -> f a = f' a) -> forallb f l = forallb f' l.
Proof.
  induction l as [|a l IH]; intros H; simpl; [done|].
  rewrite H by left. rewrite IH; [done|].
  intros b Hb. apply H. by right.
Qed.

Lemma fires_ancilla (n : nat) (zs : list nat) (st : BasisState) :
  fires n zs (alter negb n st) = fires n zs st.
Proof.
  unfold fires. rewrite flips_alter.
  apply forallb_agree. intros i Hi%elem_of_seq.
  apply wire_alter_ne. lia.
Qed.

(** The internal gate list flips the ancilla when the test fires and
    changes nothing else. *)
Lemma run_oracle_gates (n : nat) (zs : list nat) (st : BasisState) :
  run (oracle_gates n zs) st =
    if fires n zs st then alter negb n st else st.
Proof.
  unfold oracle_gates. rewrite !run_app, !run_X_on.
  cbn [run apply_instruction operation qubits apply_gate].
  rewrite list_lookup_middle by (by rewrite length_seq).
  rewrite take_app_length' by (by rewrite length_seq).
  fold (fires n zs st). destruct (fires n zs st).
  - by rewrite flips_alter, flips_twice.
  - apply flips_twice.
Qed.

Lemma apply_custom nm lbl k (d : list CircuitInstruction) (qs : list nat) :
  forall st, apply_gate (CustomGate nm lbl k d) qs st = run (map (remap qs) d) st.
Proof.
  induction d as [|[g' qs'] d IH]; intros st; [done|].
  simpl in IH |- *. apply IH.
Qed.

Lemma remap_seq (m : nat) (d : list CircuitInstruction) :
  wires_below m d -> map (remap (seq 0 m)) d = d.
Proof.
  induction 1 as [|[g qs] d Hq _ IH]; simpl; [done|].
  rewrite IH. f_equal. unfold remap. simpl. f_equal.
  simpl in Hq. induction Hq as [|q qs Hq _ IHq]; simpl; [done|].
  rewrite IHq. f_equal.
  apply list_lookup_total_correct. by rewrite lookup_seq_lt.
Qed.

Lemma wires_below_oracle_gates (n : nat) (zs : list nat) :
  Forall (fun i => i < n + 1) zs -> wires_below (n + 1) (oracle_gates n zs).
Proof.
  intros Hzs. unfold wires_below, oracle_gates.
  assert (HX : Forall (fun i => Forall (fun q => q < n + 1) (qubits i)) (map X_on zs)).
  { apply Forall_map. eapply Forall_impl; [exact Hzs|].
    intros i Hi. simpl. by repeat constructor. }
  rewrite !Forall_app. split_and!; [done| |done].
  constructor; [|constructor]. simpl.
  rewrite Forall_app. split.
  - apply Forall_forall. intros q Hq%list_elem_of_In%in_seq. lia.
  - repeat constructor. lia.
Qed.

Lemma flips_in_range_Forall (g : Globals) :
  flips_in_range g = true ->
  Forall (fun i => i < N_CONFIG_BITS g + 1) (zeros_of (SECRET_BITSTRING g)).
Proof.
  unfold flips_in_range. intros H. apply Forall_forall.
  intros i Hi%list_elem_of_In. rewrite forallb_forall in H.
  apply Nat.ltb_lt. by apply H.
Qed.

(** The wrapper circuit acts as the internal gate list does. *)
Lemma run_wrapper (g : Globals) (st : BasisState) :
  flips_in_range g = true ->
  run_circuit (wrapper_circuit g) st =
    if fires (N_CONFIG_BITS g) (zeros_of (SECRET_BITSTRING g)) st
    then alter negb (N_CONFIG_BITS g) st else st.
Proof.
  intros Hr. unfold run_circuit, wrapper_circuit, Uf_gate_of.
  cbn [data run]. unfold apply_instruction. cbn [operation qubits].
  rewrite apply_custom, remap_seq.
  - apply run_oracle_gates.
  - by apply wires_below_oracle_gates, flips_in_range_Forall.
Qed.

(** ** The flip positions and the secret pattern *)

Lemma zeros_from_cons (k : nat) (b : ascii) (s : string) :
  omap pick_zero (enumerate_from k (String b s)) =
    if Ascii.eqb b "0"%char
    then k :: omap pick_zero (enumerate_from (S k) s)
    else omap pick_zero (enumerate_from (S k) s).
Proof.
  cbn [enumerate_from]. change (omap pick_zero ((k, b) :: ?l)) with
    (match pick_zero (k, b) with Some i => i :: omap pick_zero l | None => omap pick_zero l end).
  unfold pick_zero at 1. cbn [fst snd]. by destruct (Ascii.eqb b "0"%char).
Qed.

Lemma elem_of_zeros_from (s : string) : forall (k i : nat),
  i ∈ omap pick_zero (enumerate_from k s) <->
  exists j, i = k + j /\ String.get j s = Some "0"%char.
Proof.
  induction s as [|b s IH]; intros k i.
  - split; [by intros ?%elem_of_nil | by intros (j & _ & ?)].
  - rewrite zeros_from_cons.
    destruct (Ascii.eqb_spec b "0"%char) as [->|Hb].
    + rewrite elem_of_cons, IH. split.
      * intros [->|(j & -> & Hj)]; [exists 0 | exists (S j)]; split; try lia; done.
      * intros ([|j] & -> & Hj); [left; lia|right]. exists j. split; [lia|done].
    + rewrite IH. split.
      * intros (j & -> & Hj). exists (S j). split; [lia|done].
      * intros ([|j] & -> & Hj); [simpl in Hj; congruence|].
        exists j. split; [lia|done].
Qed.

Lemma elem_of_zeros_of (s : string) (i : nat) :
  i ∈ zeros_of s <-> String.get i s = Some "0"%char.
Proof.
  unfold zeros_of, enumerate. rewrite elem_of_zeros_from.
  split; [by intros (j & -> & Hj) | intros Hi; by exists i].
Qed.

Lemma NoDup_zeros_from (s : string) : forall k,
  NoDup (omap pick_zero (enumerate_from k s)).
Proof.
  induction s as [|b s IH]; intros k.
  - constructor.
  - rewrite zeros_from_cons.
    destruct (Ascii.eqb b "0"%char); [|apply IH].
    constructor; [|apply IH].
    rewrite elem_of_zeros_from. intros (j & Hj & _). lia.
Qed.

Lemma NoDup_zeros_of (s : string) : NoDup (zeros_of s).
Proof. apply NoDup_zeros_from. Qed.

Lemma length_bits_of (s : string) : length (bits_of s) = String.length s.
Proof. induction s as [|b s IH]; simpl; [done | by rewrite IH]. Qed.

Lemma lookup_bits_of (s : string) : forall i,
  bits_of s !! i = (fun b => Ascii.eqb b "1"%char) <$> String.get i s.
Proof.
  induction s as [|b s IH]; intros [|i]; simpl; done.
Qed.

Lemma binary_get (s : string) : forall i b,
  binary s = true -> String.get i s = Some b -> b = "0"%char \/ b = "1"%char.
Proof.
  induction s as [|c s IH]; intros [|i] b Hs Hi; simpl in *; try done.
  - apply andb_true_iff in Hs as [Hc _]. injection Hi as <-.
    apply orb_true_iff in Hc as [Hc|Hc]; apply Ascii.eqb_eq in Hc; auto.
  - apply andb_true_iff in Hs as [_ Hs]. by eapply IH.
Qed.

Lemma get_is_Some (s : string) : forall i,
  i < String.length s -> exists b, String.get i s = Some b.
Proof.
  induction s as [|c s IH]; intros [|i] Hi; simpl in *; try lia; eauto.
  apply IH. lia.
Qed.

(** In a binary pattern, the flip positions are the positions whose
    bit is 0. *)
Lemma bits_zeros (s : string) (i : nat) :
  binary s = true -> i < String.length s ->
  bits_of s !! i = Some (negb (bool_decide (i ∈ zeros_of s))).
Proof.
  intros Hs Hi. rewrite lookup_bits_of.
  destruct (get_is_Some s i Hi) as [b Hb]. rewrite Hb. simpl. f_equal.
  destruct (binary_get s i b Hs Hb) as [->| ->].
  - by rewrite bool_decide_eq_true_2 by (by apply elem_of_zeros_of).
  - rewrite bool_decide_eq_false_2; [done|].
    rewrite elem_of_zeros_of, Hb. congruence.
Qed.

Lemma fires_spec (n : nat) (zs : list nat) (st : BasisState) :
  NoDup zs -> n <= length st ->
  fires n zs st = true <->
  forall i, i < n -> wire st i = negb (bool_decide (i ∈ zs)).
Proof.
  intros Hnd Hn. unfold fires. rewrite forallb_forall. split.
  - intros H i Hi.
    assert (Hin : In i (seq 0 n)) by (apply in_seq; lia).
    specialize (H i Hin). rewrite wire_flips in H by (done || lia).
    by destruct (bool_decide _), (wire st i).
  - intros H i Hi%in_seq. rewrite wire_flips by (done || lia).
    rewrite H by lia. by destruct (bool_decide _).
Qed.

(** For a well-formed secret, the test fires exactly on the secret. *)
Lemma fires_secret (g : Globals) (xs : list bool) (y : bool) :
  well_formed g = true -> length xs = N_CONFIG_BITS g ->
  fires (N_CONFIG_BITS g) (zeros_of (SECRET_BITSTRING g)) (xs ++ [y]) =
    bool_decide (xs = bits_of (SECRET_BITSTRING g)).
Proof.
  unfold well_formed. intros [Hlen%Nat.eqb_eq Hbin]%andb_true_iff Hxs.
  set (n := N_CONFIG_BITS g) in *. set (s := SECRET_BITSTRING g) in *.
  assert (Hw : forall i, i < n -> xs !! i = Some (wire (xs ++ [y]) i)).
  { intros i Hi. unfold wire. rewrite lookup_app_l by lia.
    destruct (lookup_lt_is_Some_2 xs i) as [b ->]; [lia|done]. }
  apply eq_true_iff_eq.
  rewrite fires_spec by (apply NoDup_zeros_of || rewrite length_app; lia).
  rewrite bool_decide_eq_true. split.
  - intros H. apply list_eq. intros i.
    destruct (decide (i < n)) as [Hi|Hi].
    + rewrite Hw, H, bits_zeros by (done || lia). done.
    + rewrite !lookup_ge_None_2; [done| |]; rewrite ?length_bits_of; lia.
  - intros Heq i Hi. specialize (Hw i Hi).
    rewrite Heq in Hw at 1. rewrite bits_zeros in Hw by (done || lia).
    by injection Hw as <-.
Qed.

Lemma well_formed_in_range (g : Globals) :
  well_formed g = true -> flips_in_range g = true.
Proof.
  unfold well_formed, flips_in_range.
  intros [Hlen%Nat.eqb_eq _]%andb_true_iff.
  apply forallb_forall. intros i Hi%list_elem_of_In%elem_of_zeros_of.
  apply Nat.ltb_lt.
  destruct (decide (i < String.length (SECRET_BITSTRING g))) as [?|Hge]; [lia|].
  assert (String.get i (SECRET_BITSTRING g) = None) as Hn; [|congruence].
  clear -Hge. revert i Hge.
  induction (SECRET_BITSTRING g) as [|c s IH]; intros [|i] Hge; simpl in *;
    try done; try lia.
  apply IH. lia.
Qed.

(** ** The oracle of a configuration whose flips are in range *)

Lemma alter_ancilla (xs : list bool) (y : bool) :
  alter negb (length xs) (xs ++ [y]) = xs ++ [negb y].
Proof. rewrite alter_app_r_alt, Nat.sub_diag by lia. done. Qed.

Lemma forallb_false_witness {A} (f : A -> bool) (l : list A) :
  forallb f l = false -> exists a, a ∈ l /\ f a = false.
Proof.
  induction l as [|a l IH]; simpl; [done|].
  destruct (f a) eqn:Ha; simpl.
  - intros (b & Hb & Hfb)%IH. exists b. split; [by right|done].
  - intros _. exists a. split; [by left|done].
Qed.

(** The flips leave the circuit exactly when a position beyond the
    ancilla holds the symbol 0. *)
Lemma flips_out_of_range (g : Globals) :
  flips_in_range g = false <->
  exists i, N_CONFIG_BITS g < i /\ String.get i (SECRET_BITSTRING g) = Some "0"%char.
Proof.
  unfold flips_in_range. split.
  - intros (i & Hi%elem_of_zeros_of & Hlt%Nat.ltb_ge)%forallb_false_witness.
    exists i. split; [lia|done].
  - intros (i & Hlt & Hi%elem_of_zeros_of).
    destruct (forallb _ _) eqn:Hf; [|done].
    rewrite forallb_forall in Hf.
    apply list_elem_of_In, Hf, Nat.ltb_lt in Hi. lia.
Qed.

Section Oracle.

Variable g : Globals.
Hypothesis Hrange : flips_in_range g = true.

Lemma internal_returns (h : Heap) :
  _build_internal_condor_oracle g h = Ok (length h, h ++ [internal_circuit g]).
Proof. by rewrite internal_build, Hrange. Qed.

Lemma Uf_returns (h : Heap) :
  build_Uf_condor g h =
    Ok (S (length h), h ++ [internal_circuit g; wrapper_circuit g]).
Proof. by rewrite Uf_build, Hrange. Qed.

Lemma lookup_returned (h : Heap) :
  (h ++ [internal_circuit g; wrapper_circuit g]) !! S (length h) =
    Some (wrapper_circuit g).
Proof.
  rewrite lookup_app_r by lia.
  by replace (S (length h) - length h) with 1 by lia.
Qed.

Lemma returned_wrapper (h : Heap) :
  returned_circuit (build_Uf_condor g) h = Some (wrapper_circuit g).
Proof. unfold returned_circuit. rewrite Uf_returns. apply lookup_returned. Qed.

Lemma oracle_involutive (st : BasisState) :
  run_circuit (wrapper_circuit g) (run_circuit (wrapper_circuit g) st) = st.
Proof.
  rewrite !run_wrapper by done.
  destruct (fires _ _ st) eqn:Hf.
  - by rewrite fires_ancilla, Hf, alter_negb_twice.
  - by rewrite Hf.
Qed.

Lemma oracle_frame (st : BasisState) (i : nat) :
  i ≠ N_CONFIG_BITS g ->
  run_circuit (wrapper_circuit g) st !! i = st !! i.
Proof.
  intros Hi. rewrite run_wrapper by done.
  destruct (fires _ _ st); [|done].
  by rewrite list_lookup_alter_ne.
Qed.

Lemma oracle_length (st : BasisState) :
  length (run_circuit (wrapper_circuit g) st) = length st.
Proof.
  rewrite run_wrapper by done.
  destruct (fires _ _ st); [|done]. apply length_alter.
Qed.

End Oracle.

Lemma oracle_correct (g : Globals) (xs : list bool) (y : bool) :
  well_formed g = true -> length xs = N_CONFIG_BITS g ->
  run_circuit (wrapper_circuit g) (xs ++ [y]) =
    xs ++ [xorb y (bool_decide (xs = bits_of (SECRET_BITSTRING g)))].
Proof.
  intros Hwf Hxs.
  rewrite run_wrapper by (by apply well_formed_in_range).
  rewrite fires_secret by done.
  destruct (bool_decide _).
  - rewrite <- Hxs, alter_ancilla. by destruct y.
  - by destruct y.
Qed.

(** ** The module as written *)

Lemma condor_oracle_well_formed : well_formed condor_oracle = true.
Proof. reflexivity. Qed.

Lemma condor_oracle_in_range : flips_in_range condor_oracle = true.
Proof. reflexivity. Qed.

Example exec_module_condor_oracle :
  exec_module 16 "1011101011010101" = Ok condor_oracle.
Proof. reflexivity. Qed.

Example zeros_of_secret :
  zeros_of (SECRET_BITSTRING condor_oracle) = [1; 5; 7; 10; 12; 14].
Proof. reflexivity. Qed.

(** C1: on every basis state (x, y) with x a 16-bit configuration
    vector, the circuit returned by [build_Uf_condor] yields
    (x, y XOR [x == SECRET_BITSTRING]). *)
Theorem build_Uf_condor_marks_secret (h : Heap) :
  exists qc, returned_circuit (build_Uf_condor condor_oracle) h = Some qc /\
    forall (xs : list bool) (y : bool), length xs = 16 ->
      run_circuit qc (xs ++ [y]) =
        xs ++ [xorb y (bool_decide (xs = bits_of (SECRET_BITSTRING condor_oracle)))].
Proof.
  exists (wrapper_circuit condor_oracle). split.
  - apply returned_wrapper, condor_oracle_in_range.
  - intros xs y Hxs. apply oracle_correct; [apply condor_oracle_well_formed | done].
Qed.

Lemma build_Uf_condor_marks_secret_witness :
  exists qc, returned_circuit (build_Uf_condor condor_oracle) [] = Some qc /\
    run_circuit qc (bits_of "1011101011010101" ++ [false]) =
      bits_of "1011101011010101" ++ [true].
Proof.
  destruct (build_Uf_condor_marks_secret []) as (qc & Hqc & Hrun).
  exists qc. split; [exact Hqc|].
  apply (Hrun (bits_of "1011101011010101") false). reflexivity.
Defined.

(** C2: the circuit returned by [build_Uf_condor] is self-inverse:
    applied twice to any basis state of the 17 wires, it gives that
    state back. *)
Theorem build_Uf_condor_self_inverse (h : Heap) :
  exists qc, returned_circuit (build_Uf_condor condor_oracle) h = Some qc /\
    forall st : BasisState, length st = 17 ->
      run_circuit qc (run_circuit qc st) = st.
Proof.
  exists (wrapper_circuit condor_oracle). split.
  - apply returned_wrapper, condor_oracle_in_range.
  - intros st _. apply oracle_involutive, condor_oracle_in_range.
Qed.

Lemma build_Uf_condor_self_inverse_witness :
  exists qc, returned_circuit (build_Uf_condor condor_oracle) [] = Some qc /\
    run_circuit qc (run_circuit qc (bits_of "1011101011010101" ++ [false])) =
      bits_of "1011101011010101" ++ [false].
Proof.
  destruct (build_Uf_condor_self_inverse []) as (qc & Hqc & Hrun).
  exists qc. split; [exact Hqc|].
  apply (Hrun (bits_of "1011101011010101" ++ [false])). reflexivity.
Defined.

(** C3: the circuit returned by [build_Uf_condor] leaves each of the 16
    input wires (indices 0..15) of every basis state as it was; only
    the ancilla wire (index 16) may change. *)
Theorem build_Uf_condor_preserves_inputs (h : Heap) :
  exists qc, returned_circuit (build_Uf_condor condor_oracle) h = Some qc /\
    forall (st : BasisState) (i : nat), length st = 17 -> i < 16 ->
      run_circuit qc st !! i = st !! i /\ length (run_circuit qc st) = 17.
Proof.
  exists (wrapper_circuit condor_oracle). split.
  - apply returned_wrapper, condor_oracle_in_range.
  - intros st i Hst Hi. split.
    + apply oracle_frame; [apply condor_oracle_in_range|]. simpl. lia.
    + rewrite oracle_length by apply condor_oracle_in_range. done.
Qed.

Lemma build_Uf_condor_preserves_inputs_witness :
  exists qc, returned_circuit (build_Uf_condor condor_oracle) [] = Some qc /\
    run_circuit qc (bits_of "1011101011010101" ++ [false]) !! 15 =
      (bits_of "1011101011010101" ++ [false]) !! 15 /\
    length (run_circuit qc (bits_of "1011101011010101" ++ [false])) = 17.
Proof.
  destruct (build_Uf_condor_preserves_inputs []) as (qc & Hqc & Hrun).
  exists qc. split; [exact Hqc|].
  apply (Hrun (bits_of "1011101011010101" ++ [false]) 15); [reflexivity | lia].
Defined.

(** C4: with the secret pattern 1011101011010101, the built oracle
    sends x = 1011101011010101, y = 0 to ancilla 1; x = 1011101011010100
    (last bit flipped), y = 0 to ancilla 0; and x = 0100010100101010
    (the complement of the secret), y = 1 to ancilla 1. *)
Theorem build_Uf_condor_scenario (h : Heap) :
  SECRET_BITSTRING condor_oracle = "1011101011010101" /\
  exists qc, returned_circuit (build_Uf_condor condor_oracle) h = Some qc /\
    wire (run_circuit qc (bits_of "1011101011010101" ++ [false])) 16 = true /\
    wire (run_circuit qc (bits_of "1011101011010100" ++ [false])) 16 = false /\
    wire (run_circuit qc (bits_of "0100010100101010" ++ [true])) 16 = true /\
    bits_of "1011101011010100" = alter negb 15 (bits_of "1011101011010101") /\
    bits_of "0100010100101010" = map negb (bits_of "1011101011010101").
Proof.
  split; [reflexivity|].
  exists (wrapper_circuit condor_oracle). split.
  - apply returned_wrapper, condor_oracle_in_range.
  - split_and!; reflexivity.
Qed.

(** C5: the internal gate sequence is exactly a NOT gate on each wire
    whose secret-pattern bit is 0, then one multi-controlled NOT gate
    controlled on all 16 input wires with the ancilla as target, then
    the same NOT gates on the same wires in the same order, and no
    other gate. *)
Theorem internal_gate_sequence (h : Heap) :
  exists r h' qc,
    _build_internal_condor_oracle condor_oracle h = Ok (r, h') /\
    h' !! r = Some qc /\
    data qc =
      map (fun i => Instr XGate [i]) (zero_wires condor_oracle)
      ++ [Instr (MCXGate 16) (seq 0 16 ++ [16])]
      ++ map (fun i => Instr XGate [i]) (zero_wires condor_oracle).
Proof.
  exists (length h), (h ++ [internal_circuit condor_oracle]),
         (internal_circuit condor_oracle).
  split_and!.
  - apply internal_returns, condor_oracle_in_range.
  - by apply list_lookup_middle.
  - reflexivity.
Qed.

(** C6, as the code has it: loading the module checks nothing and
    never fails, whatever the secret.  With 16 configuration bits, a
    call of [build_Uf_condor] raises when the secret holds the symbol 0
    at an index above 16, and returns a circuit for every other
    secret. *)
Theorem secret_never_validated (s : string) (h : Heap) :
  exec_module 16 s = Ok (mkGlobals 16 s) /\
  ((exists i, 16 < i /\ String.get i s = Some "0"%char) ->
     build_Uf_condor (mkGlobals 16 s) h = Raise CircuitError) /\
  ((forall i, 16 < i -> String.get i s <> Some "0"%char) ->
     exists r h' qc,
       build_Uf_condor (mkGlobals 16 s) h = Ok (r, h') /\ h' !! r = Some qc).
Proof.
  split_and!.
  - reflexivity.
  - intros Hex. rewrite Uf_build.
    by rewrite (proj2 (flips_out_of_range (mkGlobals 16 s)) Hex).
  - intros Hall.
    assert (Hr : flips_in_range (mkGlobals 16 s) = true).
    { destruct (flips_in_range _) eqn:Hf; [done|].
      apply flips_out_of_range in Hf as (i & Hi & Hget).
      by destruct (Hall i Hi). }
    eexists _, _, _. split; [by apply Uf_returns|]. by apply lookup_returned.
Qed.

Lemma secret_never_validated_witness :
  exec_module 16 "101110101101010110" = Ok (mkGlobals 16 "101110101101010110") /\
  build_Uf_condor (mkGlobals 16 "101110101101010110") [] = Raise CircuitError.
Proof.
  destruct (secret_never_validated "101110101101010110" []) as (Hload & Hraise & _).
  split; [exact Hload|].
  apply Hraise. exists 17. split; [lia | reflexivity].
Defined.

(** C6, as stated, fails: a secret of 18 symbols is malformed, yet the
    module loads, and the defect shows only when [build_Uf_condor] is
    called; a secret of 2 symbols and a secret with a symbol that is
    not binary load as well, and the call returns a circuit. *)
Lemma malformed_secret_loads :
  (well_formed (mkGlobals 16 "101110101101010110") = false /\
   exists g, exec_module 16 "101110101101010110" = Ok g /\
             build_Uf_condor g [] = Raise CircuitError) /\
  (well_formed (mkGlobals 16 "10") = false /\
   exists g, exec_module 16 "10" = Ok g /\
             returned_circuit (build_Uf_condor g) [] = Some (wrapper_circuit g)) /\
  (well_formed (mkGlobals 16 "1011101011010102") = false /\
   exists g, exec_module 16 "1011101011010102" = Ok g /\
             returned_circuit (build_Uf_condor g) [] = Some (wrapper_circuit g)).
Proof.
  split_and!; try reflexivity; eexists; split; reflexivity.
Qed.

(** C7: every circuit returned by [build_Uf_condor] declares exactly
    [N_CONFIG_BITS + 1] = 17 wires, and [N_CONFIG_BITS] is 16. *)
Theorem build_Uf_condor_width (h : Heap) :
  N_CONFIG_BITS condor_oracle = 16 /\
  exists qc, returned_circuit (build_Uf_condor condor_oracle) h = Some qc /\
    num_qubits qc = N_CONFIG_BITS condor_oracle + 1 /\
    num_qubits qc = 17.
Proof.
  split; [reflexivity|].
  exists (wrapper_circuit condor_oracle). split_and!; [|reflexivity..].
  apply returned_wrapper, condor_oracle_in_range.
Qed.

(** C8: the circuit returned by [build_Uf_condor] holds exactly one
    top-level instruction: one named custom gate of width 17 applied to
    the wires 0..16 in order. *)
Theorem build_Uf_condor_single_box (h : Heap) :
  exists qc d, returned_circuit (build_Uf_condor condor_oracle) h = Some qc /\
    data qc = [Instr (CustomGate "Uf_condor" (Some "$U_f$") 17 d) (seq 0 17)].
Proof.
  exists (wrapper_circuit condor_oracle), (oracle_gates 16 [1; 5; 7; 10; 12; 14]).
  split; [|reflexivity].
  apply returned_wrapper, condor_oracle_in_range.
Qed.

(** C9: any two calls of [build_Uf_condor] return circuits with the
    same action on every basis state, and nothing is cached or shared:
    on every store the call returns the same circuit, whatever objects
    exist already; each call makes its own internal circuit and its own
    wrapper, both new objects, distinct from every object that existed
    before and from those of the other call; it leaves every existing
    object as it was; and a later change to the first circuit does not
    reach the second. *)
Theorem build_Uf_condor_fresh_each_call (h : Heap) :
  exists r1 h1 r2 h2 c1 c2,
    build_Uf_condor condor_oracle h = Ok (r1, h1) /\
    build_Uf_condor condor_oracle h1 = Ok (r2, h2) /\
    h1 !! r1 = Some c1 /\ h2 !! r2 = Some c2 /\
    (forall st, run_circuit c1 st = run_circuit c2 st) /\
    h !! r1 = None /\ h1 !! r2 = None /\ r1 <> r2 /\
    (forall r c, h !! r = Some c -> h1 !! r = Some c) /\
    (forall r c, h1 !! r = Some c -> h2 !! r = Some c) /\
    (forall gt qs h3,
       QuantumCircuit_append r1 gt qs h2 = Ok (tt, h3) ->
       h3 !! r2 = Some c2 /\ h3 !! r1 <> Some c1) /\
    (forall ha, returned_circuit (build_Uf_condor condor_oracle) ha = Some c1) /\
    (forall ha hb ca cb,
       returned_circuit (build_Uf_condor condor_oracle) ha = Some ca ->
       returned_circuit (build_Uf_condor condor_oracle) hb = Some cb ->
       ca = cb /\ forall st, run_circuit ca st = run_circuit cb st) /\
    (exists i1 i2 qi,
       h !! i1 = None /\ h1 !! i1 = Some qi /\
       h1 !! i2 = None /\ h2 !! i2 = Some qi /\
       i1 <> i2 /\ i1 <> r1 /\ i1 <> r2 /\ i2 <> r1 /\ i2 <> r2 /\
       (forall ha,
          returned_circuit (_build_internal_condor_oracle condor_oracle) ha = Some qi) /\
       data c1 = [Instr (CustomGate "Uf_condor" (Some "$U_f$") 17 (data qi))
                        (seq 0 17)]) /\
    (forall ha, exists ra ha' ia,
       build_Uf_condor condor_oracle ha = Ok (ra, ha') /\
       ha !! ra = None /\ ha !! ia = None /\ ia <> ra /\
       ha' !! ra = Some c1 /\
       returned_circuit (_build_internal_condor_oracle condor_oracle) ha = ha' !! ia /\
       (forall r c, ha !! r = Some c -> ha' !! r = Some c)).
Proof.
  set (g := condor_oracle).
  pose proof condor_oracle_in_range as Hg. fold g in Hg.
  set (h1 := h ++ [internal_circuit g; wrapper_circuit g]).
  exists (S (length h)), h1, (S (length h1)),
         (h1 ++ [internal_circuit g; wrapper_circuit g]),
         (wrapper_circuit g), (wrapper_circuit g).
  assert (Hlen : length h1 = length h + 2) by (unfold h1; rewrite length_app; done).
  assert (Hint : forall ha : Heap,
            (ha ++ [internal_circuit g; wrapper_circuit g]) !! length ha =
              Some (internal_circuit g)).
  { intros ha. by apply list_lookup_middle. }
  assert (Hri : forall ha : Heap,
            returned_circuit (_build_internal_condor_oracle g) ha =
              Some (internal_circuit g)).
  { intros ha. unfold returned_circuit. rewrite internal_returns by done.
    by apply list_lookup_middle. }
  split_and!.
  - by apply Uf_returns.
  - by apply Uf_returns.
  - apply lookup_returned.
  - apply lookup_returned.
  - done.
  - apply lookup_ge_None_2. lia.
  - apply lookup_ge_None_2. lia.
  - lia.
  - intros r c Hr. unfold h1. rewrite lookup_app_l; [done|].
    by eapply lookup_lt_Some.
  - intros r c Hr. rewrite lookup_app_l; [done|]. by eapply lookup_lt_Some.
  - intros gt qs h3. unfold QuantumCircuit_append.
    assert (H1 : h1 !! S (length h) = Some (wrapper_circuit g))
      by apply lookup_returned.
    rewrite (lookup_app_l h1) by lia. rewrite H1.
    destruct (qargs_ok _ gt qs); [|done].
    intros [= <-]. split.
    + rewrite list_lookup_insert_ne by lia. apply lookup_returned.
    + rewrite list_lookup_insert_eq.
      * by intros [=].
      * rewrite length_app. simpl. lia.
  - intros ha. by apply returned_wrapper.
  - intros ha hb ca cb. rewrite !returned_wrapper by done.
    intros [= <-] [= <-]. done.
  - exists (length h), (length h1), (internal_circuit g). split_and!.
    + apply lookup_ge_None_2. lia.
    + apply Hint.
    + apply lookup_ge_None_2. lia.
    + apply Hint.
    + lia.
    + lia.
    + lia.
    + lia.
    + lia.
    + exact Hri.
    + reflexivity.
  - intros ha.
    exists (S (length ha)), (ha ++ [internal_circuit g; wrapper_circuit g]), (length ha).
    split_and!.
    + by apply Uf_returns.
    + apply lookup_ge_None_2. lia.
    + apply lookup_ge_None_2. lia.
    + lia.
    + apply lookup_returned.
    + by rewrite Hri, Hint.
    + intros r c Hr. rewrite lookup_app_l; [done|]. by eapply lookup_lt_Some.
Qed.

(** C10: for a secret of 16 binary symbols, [build_Uf_condor] returns a
    circuit and does not raise, and every gate the internal
    construction appends addresses wires in the range 0..16 only. *)
Theorem build_Uf_condor_total (s : string) (h : Heap) :
  well_formed (mkGlobals 16 s) = true ->
  (exists r h' qc,
     build_Uf_condor (mkGlobals 16 s) h = Ok (r, h') /\ h' !! r = Some qc) /\
  (exists r h' qc,
     _build_internal_condor_oracle (mkGlobals 16 s) h = Ok (r, h') /\
     h' !! r = Some qc /\
     Forall (fun i => Forall (fun q => q <= 16) (qubits i)) (data qc)).
Proof.
  intros Hwf. pose proof (well_formed_in_range _ Hwf) as Hr. split.
  - eexists _, _, _. split; [by apply Uf_returns|]. by apply lookup_returned.
  - eexists _, _, _. split_and!; [by apply internal_returns| by apply list_lookup_middle|].
    pose proof (wires_below_oracle_gates 16 _ (flips_in_range_Forall _ Hr)) as Hw.
    eapply Forall_impl; [exact Hw|]. intros i Hi.
    eapply Forall_impl; [exact Hi|]. simpl. lia.
Qed.

Lemma build_Uf_condor_total_witness :
  (exists r h' qc,
     build_Uf_condor condor_oracle [] = Ok (r, h') /\ h' !! r = Some qc) /\
  (exists r h' qc,
     _build_internal_condor_oracle condor_oracle [] = Ok (r, h') /\
     h' !! r = Some qc /\
     Forall (fun i => Forall (fun q => q <= 16) (qubits i)) (data qc)).
Proof.
  apply (build_Uf_condor_total "1011101011010101" []). reflexivity.
Defined.

(** ** Further properties of the builders *)







Lemma bits_of_inj (s1 : string) : forall s2,
  binary s1 = true -> binary s2 = true -> bits_of s1 = bits_of s2 -> s1 = s2.
Proof.
  induction s1 as [|a s1 IH]; intros [|b s2] H1 H2 Heq; simpl in *; try done.
  apply andb_true_iff in H1 as [Ha H1]. apply andb_true_iff in H2 as [Hb H2].
  injection Heq as Hab Heq. f_equal; [|by apply IH].
  apply orb_true_iff in Ha as [Ha|Ha]; apply Ascii.eqb_eq in Ha;
    apply orb_true_iff in Hb as [Hb|Hb]; apply Ascii.eqb_eq in Hb;
    subst; done.
Qed.


Lemma sorted_zeros_from (s : string) : forall k,
  StronglySorted lt (omap pick_zero (enumerate_from k s)).
Proof.
  induction s as [|b s IH]; intros k.
  - constructor.
  - rewrite zeros_from_cons.
    destruct (Ascii.eqb b "0"%char); [|apply IH].
    constructor; [apply IH|].
    apply Forall_forall. intros i (j & -> & _)%elem_of_zeros_from. lia.
Qed.













(** X7: what [build_Uf_condor] returns does not depend on the store it
    is called in: on any two stores it returns the same circuit, or
    raises on both. *)
Theorem build_Uf_condor_store_independent (g : Globals) (h h' : Heap) :
  returned_circuit (build_Uf_condor g) h = returned_circuit (build_Uf_condor g) h' /\
  (build_Uf_condor g h = Raise CircuitError <->
   build_Uf_condor g h' = Raise CircuitError).
Proof.
  unfold returned_circuit. rewrite !Uf_build.
  destruct (flips_in_range g) eqn:Hr; [|done].
  split; [|done]. by rewrite !lookup_returned.
Qed.

(** X8: the oracle gives the secret away to whoever can run it: for two
    different well-formed secrets of the same width, the two returned
    circuits differ on the basis state made of the first secret and
    ancilla 0. *)
Theorem distinct_secrets_distinct_oracles (n : nat) (s1 s2 : string) (h1 h2 : Heap) :
  well_formed (mkGlobals n s1) = true ->
  well_formed (mkGlobals n s2) = true ->
  s1 <> s2 ->
  exists q1 q2,
    returned_circuit (build_Uf_condor (mkGlobals n s1)) h1 = Some q1 /\
    returned_circuit (build_Uf_condor (mkGlobals n s2)) h2 = Some q2 /\
    run_circuit q1 (bits_of s1 ++ [false]) <> run_circuit q2 (bits_of s1 ++ [false]).
Proof.
  intros Hw1 Hw2 Hne.
  exists (wrapper_circuit (mkGlobals n s1)), (wrapper_circuit (mkGlobals n s2)).
  split_and!; try (by apply returned_wrapper, well_formed_in_range).
  assert (Hlen : length (bits_of s1) = n).
  { rewrite length_bits_of. unfold well_formed in Hw1. simpl in Hw1.
    by apply andb_true_iff in Hw1 as [?%Nat.eqb_eq _]. }
  rewrite !oracle_correct by done. simpl SECRET_BITSTRING.
  rewrite bool_decide_eq_true_2 by done.
  intros Heq%app_inv_head. injection Heq as Heq. simpl in Heq.
  symmetry in Heq. apply bool_decide_eq_true in Heq.
  apply Hne, bits_of_inj; [| |done].
  - unfold well_formed in Hw1. by apply andb_true_iff in Hw1 as [_ ?].
  - unfold well_formed in Hw2. by apply andb_true_iff in Hw2 as [_ ?].
Qed.

Lemma distinct_secrets_distinct_oracles_witness :
  exists q1 q2,
    returned_circuit (build_Uf_condor (mkGlobals 3 "010")) [] = Some q1 /\
    returned_circuit (build_Uf_condor (mkGlobals 3 "011")) [] = Some q2 /\
    run_circuit q1 (bits_of "010" ++ [false]) <> run_circuit q2 (bits_of "010" ++ [false]).
Proof.
  apply (distinct_secrets_distinct_oracles 3 "010" "011" [] []);
    [reflexivity | reflexivity | discriminate].
Defined.

(** X9: the list [zeros] holds exactly the indices at which the secret
    has the symbol 0, each once, in increasing order. *)
Theorem zeros_of_sorted_positions (s : string) :
  StronglySorted lt (zeros_of s) /\
  forall i, i ∈ zeros_of s <-> String.get i s = Some "0"%char.
Proof.
  split; [apply sorted_zeros_from | apply elem_of_zeros_of].
Qed.

